(** * Movie recommendation service: handlers of [main.py] over an explicit store

    The service keeps three tables (users, movies, ratings) in a relational
    store and exposes one handler per route.  Each handler is embedded as a
    function from the store to an outcome and the store after the request;
    the handlers are written in a small state-and-exception monad so that
    they read like the Python bodies.

    What is taken from the schema declared in [main.py]:
    - every table has an integer primary key filled by the store at INSERT;
    - [users.username] and [users.email] are declared [unique=True], so an
      INSERT that repeats one of them makes [db.commit()] raise
      [IntegrityError], which no handler catches;
    - the foreign keys of [ratings] are declared but the engine is a plain
      SQLite connection, which does not check them.

    What is taken from the libraries the handlers call:
    - [pwd_context.hash] refuses a secret of more than 4096 characters and
      one that holds a NUL character, before anything is added to the
      session; the digest of an accepted secret and the salt drawn for it
      are parameters;
    - the SQLite driver binds an [int] only if it fits in 64 bits, and a
      [str] only if it encodes to UTF-8; otherwise [db.commit()] raises
      and nothing is stored;
    - a REAL column gives NaN back as NULL and negative zero as zero, which
      is what [db.refresh] reads into the object. *)

From Stdlib Require Import List ZArith NArith String Ascii Bool Lia SpecFloat.
Import ListNotations.

Set Implicit Arguments.

Local Open Scope string_scope.
Local Open Scope list_scope.
Local Open Scope Z_scope.

(** ** Python values *)

(** A Python [float]: an IEEE 754 binary64 value. *)
Definition float : Type := spec_float.

(** A Python [str] as the sequence of its code points; this is how the text
    of a movie is kept, so that a request can carry a lone surrogate. *)
Definition str : Type := list N.

Definition is_surrogate (c : N) : bool :=
  (55296 <=? c)%N && (c <=? 57343)%N.

(** What [str.encode('utf-8')] accepts. *)
Definition utf8_encodable (s : str) : bool :=
  forallb (fun c => negb (is_surrogate c)) s.

(** The [str] of an ASCII literal. *)
Definition text (s : string) : str :=
  map N_of_ascii (list_ascii_of_string s).

(** What the SQLite driver binds as an INTEGER: a signed 64-bit value. *)
Definition int64_ok (z : Z) : bool :=
  (-9223372036854775808 <=? z) && (z <=? 9223372036854775807).

(** What a REAL column gives back for a float written to it. *)
Definition sqlite_real (x : float) : option float :=
  match x with
  | S754_nan => None
  | S754_zero true => Some (S754_zero false)
  | _ => Some x
  end.

Fixpoint has_NUL (s : string) : bool :=
  match s with
  | EmptyString => false
  | String c rest => Ascii.eqb c Ascii.zero || has_NUL rest
  end.

(** ** ORM classes (rows of the three tables) *)

Module User.
Record t : Type := mk
  { id : Z;
    username : string;
    email : string;
    hashed_password : string }.
End User.

Module Movie.
Record t : Type := mk
  { id : Z;
    title : str;
    description : str }.
End Movie.

(** [rating] is a nullable column: [None] is NULL. *)
Module Rating.
Record t (float : Type) : Type := mk
  { id : Z;
    movie_id : Z;
    user_id : Z;
    rating : option float }.
End Rating.

(** ** Pydantic schemas (request bodies and response models) *)

Module UserCreate.
Record t : Type := mk
  { username : string;
    email : string;
    password : string }.
End UserCreate.

Module UserResponse.
Record t : Type := mk
  { id : Z;
    username : string;
    email : string }.

(** [orm_mode = True]: the response model reads its own fields, and only
    those, off the ORM object. *)
Definition from_orm (u : User.t) : t :=
  {| id := User.id u;
     username := User.username u;
     email := User.email u |}.
End UserResponse.

Module MovieCreate.
Record t : Type := mk
  { title : str;
    description : str }.
End MovieCreate.

Module MovieResponse.
Record t : Type := mk
  { id : Z;
    title : str;
    description : str }.

Definition from_orm (m : Movie.t) : t :=
  {| id := Movie.id m;
     title := Movie.title m;
     description := Movie.description m |}.
End MovieResponse.

Module RatingCreate.
Record t (float : Type) : Type := mk
  { movie_id : Z;
    user_id : Z;
    rating : float }.
End RatingCreate.

Module RatingResponse.
Record t (float : Type) : Type := mk
  { id : Z;
    movie_id : Z;
    user_id : Z;
    rating : float }.

(** [rating: float] is a required field: an object whose rating is [None]
    does not validate. *)
Definition from_orm {float : Type} (r : Rating.t float) : option (t float) :=
  match Rating.rating r with
  | Some x =>
      Some {| id := Rating.id r;
              movie_id := Rating.movie_id r;
              user_id := Rating.user_id r;
              rating := x |}
  | None => None
  end.
End RatingResponse.

(** ** JSON payloads *)

Inductive json : Type :=
| JInt (z : Z)
| JStr (s : string).

(** A JSON object, as the ordered list of its members. *)
Definition json_object : Type := list (string * json).

Fixpoint member (key : string) (o : json_object) : option json :=
  match o with
  | [] => None
  | (k, v) :: rest => if String.eqb k key then Some v else member key rest
  end.

Definition keys (o : json_object) : list string := map fst o.

(** The body FastAPI sends for a [UserResponse]. *)
Definition UserResponse_payload (r : UserResponse.t) : json_object :=
  [ ("id", JInt (UserResponse.id r));
    ("username", JStr (UserResponse.username r));
    ("email", JStr (UserResponse.email r)) ].

(** ** Exceptions and outcomes *)

Inductive Exception : Type :=
| HTTPException (status_code : Z) (detail : string)
| IntegrityError
| PasswordSizeError
| PasswordValueError
| OverflowError
| UnicodeEncodeError
| ValidationError.

Inductive Result (A : Type) : Type :=
| Return (a : A)
| Raise (e : Exception).

Arguments Return {A} a.
Arguments Raise {A} e.

(** ** Primary keys *)

(** SQLite's choice for an INTEGER PRIMARY KEY left unset: 1 in an empty
    table, otherwise one more than the largest key present. *)
Definition next_rowid (ids : list Z) : Z :=
  match ids with
  | [] => 1
  | i :: rest => fold_left Z.max rest i + 1
  end.

(** ** The store *)

Record Store (float : Type) : Type := mkStore
  { users : list User.t;
    movies : list Movie.t;
    ratings : list (Rating.t float) }.

(** The tables right after [Base.metadata.create_all] on a new file. *)
Definition empty_store (float : Type) : Store float := mkStore [] [] [].

(** The keys SQLite hands out to the first [n] rows of a table that never
    loses a row: 1, 2, ..., n. *)
Definition first_keys (n : nat) : list Z := map Z.of_nat (seq 1 n).

(** A movie whose two texts the driver can encode. *)
Definition movie_storable (movie : MovieCreate.t) : bool :=
  utf8_encodable (MovieCreate.title movie)
  && utf8_encodable (MovieCreate.description movie).

(** A rating whose two ids the driver can bind. *)
Definition rating_storable (rating : RatingCreate.t float) : bool :=
  int64_ok (RatingCreate.movie_id rating)
  && int64_ok (RatingCreate.user_id rating).

(** Instances used to run the handlers on concrete requests. *)
Definition demo_hash (salt password : string) : string :=
  ("$2b$12$" ++ salt ++ password)%string.

Definition alice : User.t :=
  User.mk 1 "alice" "alice@example.org" (demo_hash "s1" "wonderland").

Definition alice_create : UserCreate.t :=
  UserCreate.mk "alice" "alice@example.org" "wonderland".

Definition alice_again : UserCreate.t :=
  UserCreate.mk "alice2" "alice@example.org" "rabbit".

Definition alice_new_email : UserCreate.t :=
  UserCreate.mk "alice" "alice@example.net" "rabbit".

Definition bob : UserCreate.t :=
  UserCreate.mk "bob" "bob@example.org" "hunter2".

Definition heat : MovieCreate.t :=
  MovieCreate.mk (text "Heat") (text "Los Angeles, 1995").

(** A title made of one lone surrogate, U+D800. *)
Definition surrogate_movie : MovieCreate.t :=
  MovieCreate.mk [55296%N] (text "unpaired").

(** -83.5 for a movie and a user that do not exist. *)
Definition wild_rating : RatingCreate.t float :=
  RatingCreate.mk 404 (-7) (S754_finite true 167 (-1)).


Definition nan_rating : RatingCreate.t float :=
  RatingCreate.mk 1 1 S754_nan.

Definition store_alice : Store float := mkStore [alice] [] [].

Definition bob_row : User.t :=
  User.mk 2 "bob" "bob@example.org" (demo_hash "s2" "hunter2").

Definition bob_response : UserResponse.t :=
  UserResponse.mk 2 "bob" "bob@example.org".

Definition store_alice_bob : Store float := mkStore [alice; bob_row] [] [].

Definition heat_response : MovieResponse.t :=
  MovieResponse.mk 1 (text "Heat") (text "Los Angeles, 1995").

Definition bob_again : UserCreate.t :=
  UserCreate.mk "bobby" "bob@example.org" "letmein".

(** bob with a NUL character in his password. *)
Definition bob_nul : UserCreate.t :=
  UserCreate.mk "bob" "bob@example.org"
                (String "a" (String Ascii.zero (String "b" EmptyString))).

Section Service.

(** bcrypt: the salt drawn by the context and the digest it computes for a
    secret it accepts. *)
Variable salt : Type.
Variable bcrypt_digest : salt -> string -> string.

(** ** The monad of handlers: state passing with exceptions *)

Definition Handler (A : Type) : Type :=
  Store float -> Result A * Store float.

Definition ret {A : Type} (a : A) : Handler A :=
  fun s => (Return a, s).

Definition raise {A : Type} (e : Exception) : Handler A :=
  fun s => (Raise e, s).

Definition bind {A B : Type} (m : Handler A) (k : A -> Handler B) : Handler B :=
  fun s =>
    match m s with
    | (Return a, s') => k a s'
    | (Raise e, s') => (Raise e, s')
    end.

(** A call that does not touch the store. *)
Definition call {A : Type} (r : Result A) : Handler A :=
  fun s => (r, s).

Notation "x <- m ;; k" := (bind m (fun x => k))
  (at level 61, m at next level, right associativity).

(** ** Session operations *)

(** [db.query(User).filter(User.email == e).first()] *)
Definition query_User_by_email_first (e : string) : Handler (option User.t) :=
  fun s => (Return (find (fun u => String.eqb (User.email u) e) (users s)), s).

(** [db.query(Movie).all()] *)
Definition query_Movie_all : Handler (list Movie.t) :=
  fun s => (Return (movies s), s).

(** The UNIQUE constraints of the [users] table, checked for a new row. *)
Definition users_unique_ok (row : User.t) (table : list User.t) : bool :=
  negb (existsb (fun u => String.eqb (User.username u) (User.username row)) table)
  && negb (existsb (fun u => String.eqb (User.email u) (User.email row)) table).

(** [db.add(obj); db.commit(); db.refresh(obj)] for a new [User].  The
    object comes without its key ([obj] awaits it); the INSERT fills the
    key, checks the constraints and either stores the row or rolls back. *)
Definition add_commit_refresh_User (obj : Z -> User.t) : Handler User.t :=
  fun s =>
    let row := obj (next_rowid (map User.id (users s))) in
    if users_unique_ok row (users s)
    then (Return row, mkStore (users s ++ [row]) (movies s) (ratings s))
    else (Raise IntegrityError, s).

(** The same three calls for a new [Movie]: no constraint besides the key,
    but the driver has to encode the two texts; when it cannot, the commit
    raises and the table is as before. *)
Definition add_commit_refresh_Movie (obj : Z -> Movie.t) : Handler Movie.t :=
  fun s =>
    let row := obj (next_rowid (map Movie.id (movies s))) in
    if utf8_encodable (Movie.title row)
       && utf8_encodable (Movie.description row)
    then (Return row, mkStore (users s) (movies s ++ [row]) (ratings s))
    else (Raise UnicodeEncodeError, s).

(** The same three calls for a new [Rating]: the foreign keys are not
    checked by the engine, but the two ids have to fit the driver's
    integers; when one does not, the commit raises and the table is as
    before.  The refresh reads the rating as the REAL column gives it
    back. *)
Definition add_commit_refresh_Rating (obj : Z -> Rating.t float)
  : Handler (Rating.t float) :=
  fun s =>
    let new := obj (next_rowid (map (@Rating.id float) (ratings s))) in
    if int64_ok (Rating.movie_id new) && int64_ok (Rating.user_id new)
    then
      let row :=
        Rating.mk (Rating.id new) (Rating.movie_id new) (Rating.user_id new)
                  (match Rating.rating new with
                   | Some x => sqlite_real x
                   | None => None
                   end) in
      (Return row, mkStore (users s) (movies s) (ratings s ++ [row]))
    else (Raise OverflowError, s).

(** ** Handlers *)

(** [pwd_context.hash(secret)] *)
Definition pwd_context_hash (r : salt) (secret : string) : Result string :=
  if (4096 <? String.length secret)%nat then Raise PasswordSizeError
  else if has_NUL secret then Raise PasswordValueError
  else Return (bcrypt_digest r secret).

Definition get_password_hash (r : salt) (password : string) : Result string :=
  pwd_context_hash r password.

Definition create_user (user : UserCreate.t) (r : salt)
  : Handler UserResponse.t :=
  db_user <- query_User_by_email_first (UserCreate.email user) ;;
  match db_user with
  | Some _ => raise (HTTPException 400 "Email already registered")
  | None =>
      hashed_password <- call (get_password_hash r (UserCreate.password user)) ;;
      let db_user := fun pk =>
        User.mk pk (UserCreate.username user) (UserCreate.email user)
                hashed_password in
      db_user <- add_commit_refresh_User db_user ;;
      ret (UserResponse.from_orm db_user)
  end.

Definition create_movie (movie : MovieCreate.t) : Handler MovieResponse.t :=
  let db_movie := fun pk =>
    Movie.mk pk (MovieCreate.title movie) (MovieCreate.description movie) in
  db_movie <- add_commit_refresh_Movie db_movie ;;
  ret (MovieResponse.from_orm db_movie).

(** [create_rating] returns the refreshed object; its response model is
    applied after the handler has returned, by [respond_Rating]. *)
Definition create_rating (rating : RatingCreate.t float)
  : Handler (Rating.t float) :=
  let db_rating := fun pk =>
    Rating.mk pk (RatingCreate.movie_id rating) (RatingCreate.user_id rating)
              (Some (RatingCreate.rating rating)) in
  db_rating <- add_commit_refresh_Rating db_rating ;;
  ret db_rating.

Definition get_recommendations (user_id : Z)
  : Handler (list MovieResponse.t) :=
  movies <- query_Movie_all ;;
  ret (map MovieResponse.from_orm movies).

(** [read_root] takes no session at all. *)
Definition read_root : list (string * string) :=
  [ ("message", "Welcome to the Movie Recommendation System") ].

(** ** The application: one request, one handler *)

Inductive Request : Type :=
| POST_register (user : UserCreate.t) (r : salt)
| POST_movies (movie : MovieCreate.t)
| POST_ratings (rating : RatingCreate.t float)
| GET_recommendations (user_id : Z)
| GET_root.

Inductive Body : Type :=
| BUser (u : UserResponse.t)
| BMovie (m : MovieResponse.t)
| BRating (r : RatingResponse.t float)
| BMovies (l : list MovieResponse.t)
| BRoot (d : list (string * string)).

(** [response_model=RatingResponse] on what [create_rating] returned. *)
Definition respond_Rating (x : Rating.t float) : Handler Body :=
  match RatingResponse.from_orm x with
  | Some b => ret (BRating b)
  | None => raise ValidationError
  end.

Definition app (req : Request) : Handler Body :=
  match req with
  | POST_register user r => u <- create_user user r ;; ret (BUser u)
  | POST_movies movie => m <- create_movie movie ;; ret (BMovie m)
  | POST_ratings rating => x <- create_rating rating ;; respond_Rating x
  | GET_recommendations user_id =>
      l <- get_recommendations user_id ;; ret (BMovies l)
  | GET_root => ret (BRoot read_root)
  end.

(** Stores the service can be in: the empty one, and the store left by any
    request handled in a store it can be in. *)
Inductive reachable : Store float -> Prop :=
| reachable_empty : reachable (empty_store float)
| reachable_step (req : Request) (s : Store float) :
    reachable s -> reachable (snd (app req s)).

(** ** Runs of the service *)

(** The store after a list of requests, handled one after the other; a
    request that raises leaves the store its handler left. *)
Fixpoint run (reqs : list Request) (s : Store float) : Store float :=
  match reqs with
  | [] => s
  | req :: rest => run rest (snd (app req s))
  end.

Definition is_POST_register (req : Request) : bool :=
  match req with POST_register _ _ => true | _ => false end.

(** A movie creation whose two texts the driver can encode. *)
Definition is_stored_movie (req : Request) : bool :=
  match req with
  | POST_movies movie => movie_storable movie
  | _ => false
  end.

(** A rating creation whose two ids the driver can bind. *)
Definition is_stored_rating (req : Request) : bool :=
  match req with
  | POST_ratings rating => rating_storable rating
  | _ => false
  end.

(** The UNIQUE columns of [users], as tests on a table. *)
Definition email_taken (e : string) (table : list User.t) : bool :=
  existsb (fun u => String.eqb (User.email u) e) table.

Definition username_taken (n : string) (table : list User.t) : bool :=
  existsb (fun u => String.eqb (User.username u) n) table.

(** The four tests a registration has to pass, in the order the handler
    meets them: the email query, the two refusals of the hash, the UNIQUE
    constraint on the username. *)
Definition registration_accepted (user : UserCreate.t) (s : Store float)
  : bool :=
  negb (email_taken (UserCreate.email user) (users s))
  && negb (4096 <? String.length (UserCreate.password user))%nat
  && negb (has_NUL (UserCreate.password user))
  && negb (username_taken (UserCreate.username user) (users s)).

(** The row a registration stores when it succeeds. *)
Definition new_user_row (user : UserCreate.t) (r : salt) (s : Store float)
  : User.t :=
  User.mk (next_rowid (map User.id (users s)))
          (UserCreate.username user) (UserCreate.email user)
          (bcrypt_digest r (UserCreate.password user)).

(** The row a movie creation stores when it succeeds. *)
Definition new_movie_row (movie : MovieCreate.t) (s : Store float)
  : Movie.t :=
  Movie.mk (next_rowid (map Movie.id (movies s)))
           (MovieCreate.title movie) (MovieCreate.description movie).

(** The row a rating creation stores when it succeeds. *)
Definition new_rating_row (rating : RatingCreate.t float) (s : Store float)
  : Rating.t float :=
  Rating.mk (next_rowid (map (@Rating.id float) (ratings s)))
            (RatingCreate.movie_id rating) (RatingCreate.user_id rating)
            (sqlite_real (RatingCreate.rating rating)).

(** The keys of the three tables are 1, 2, ..., in the order of the rows. *)
Definition keys_in_sequence (s : Store float) : Prop :=
  map User.id (users s) = first_keys (List.length (users s)) /\
  map Movie.id (movies s) = first_keys (List.length (movies s)) /\
  map (@Rating.id float) (ratings s) = first_keys (List.length (ratings s)).

(** ** The session dependency *)

(** The process around the store: the database file and the sessions that
    are open on it. *)
Record Server : Type := mkServer
  { database : Store float;
    open_sessions : nat }.

(** [db = SessionLocal()] *)
Definition SessionLocal (w : Server) : Server :=
  mkServer (database w) (S (open_sessions w)).

(** [db.close()] *)
Definition db_close (w : Server) : Server :=
  mkServer (database w) (Nat.pred (open_sessions w)).

(** [get_db], as FastAPI drives it for an endpoint that declares
    [Depends(get_db)]: the session is opened, the endpoint runs at the
    [yield], and the [finally] clause closes the session whether the
    endpoint returned or raised. *)
Definition get_db {A : Type} (endpoint : Handler A)
  : Server -> Result A * Server :=
  fun w =>
    let w1 := SessionLocal w in
    match endpoint (database w1) with
    | (Return a, s') => (Return a, db_close (mkServer s' (open_sessions w1)))
    | (Raise e, s') => (Raise e, db_close (mkServer s' (open_sessions w1)))
    end.

(** The routes: the four endpoints that depend on [get_db], and the root,
    which does not. *)
Definition serve (req : Request) : Server -> Result Body * Server :=
  match req with
  | POST_register user r =>
      get_db (u <- create_user user r ;; ret (BUser u))
  | POST_movies movie =>
      get_db (m <- create_movie movie ;; ret (BMovie m))
  | POST_ratings rating =>
      get_db (x <- create_rating rating ;; respond_Rating x)
  | GET_recommendations user_id =>
      get_db (l <- get_recommendations user_id ;; ret (BMovies l))
  | GET_root => fun w => (Return (BRoot read_root), w)
  end.

(** ** Auxiliary facts *)

(** The handler unfolded once: the ways a registration can end. *)
Lemma create_user_cases (user : UserCreate.t) (r : salt) (s : Store float) :
  create_user user r s =
  match find (fun u => String.eqb (User.email u) (UserCreate.email user))
             (users s) with
  | Some _ => (Raise (HTTPException 400 "Email already registered"), s)
  | None =>
      match get_password_hash r (UserCreate.password user) with
      | Raise e => (Raise e, s)
      | Return hashed_password =>
          let row :=
            User.mk (next_rowid (map User.id (users s)))
                    (UserCreate.username user) (UserCreate.email user)
                    hashed_password in
          if users_unique_ok row (users s)
          then (Return (UserResponse.from_orm row),
                mkStore (users s ++ [row]) (movies s) (ratings s))
          else (Raise IntegrityError, s)
      end
  end.
Proof.
  unfold create_user, bind, query_User_by_email_first, call.
  destruct (find _ (users s)) as [u|]; [reflexivity|].
  destruct (get_password_hash r (UserCreate.password user)) as [h|e];
    [|reflexivity].
  unfold add_commit_refresh_User; cbn zeta.
  destruct (users_unique_ok _ (users s)); reflexivity.
Qed.

Lemma find_email_taken (e : string) (table : list User.t) :
  (exists u, In u table /\ User.email u = e) ->
  exists u, find (fun u => String.eqb (User.email u) e) table = Some u.
Proof.
  intros [u [Hin He]].
  destruct (find (fun u => String.eqb (User.email u) e) table) as [v|] eqn:F.
  - now exists v.
  - apply (find_none _ _ F) in Hin. apply String.eqb_neq in Hin. contradiction.
Qed.

Lemma find_email_fresh (e : string) (table : list User.t) :
  (forall u, In u table -> User.email u <> e) ->
  find (fun u => String.eqb (User.email u) e) table = None.
Proof.
  intros Hfresh.
  destruct (find (fun u => String.eqb (User.email u) e) table) as [v|] eqn:F;
    [|reflexivity].
  apply find_some in F as [Hin He]. apply String.eqb_eq in He.
  now apply Hfresh in Hin.
Qed.

Lemma existsb_username_false (n : string) (table : list User.t) :
  existsb (fun u => String.eqb (User.username u) n) table = false ->
  ~ In n (map User.username table).
Proof.
  induction table as [|u table IH]; cbn; [tauto|].
  intros H. apply orb_false_iff in H as [Hu Ht].
  apply String.eqb_neq in Hu. intros [E|E]; [contradiction|].
  now apply IH.
Qed.

Lemma existsb_username_true (n : string) (table : list User.t) :
  (exists u, In u table /\ User.username u = n) ->
  existsb (fun u => String.eqb (User.username u) n) table = true.
Proof.
  intros [u [Hin Hn]]. apply existsb_exists. exists u. split; [exact Hin|].
  now apply String.eqb_eq.
Qed.

Lemma NoDup_snoc {A : Type} (l : list A) (x : A) :
  NoDup l -> ~ In x l -> NoDup (l ++ [x]).
Proof.
  induction l as [|a l IH]; cbn; intros Hl Hx.
  - constructor; [tauto|constructor].
  - inversion Hl as [|? ? Ha Hl']; subst. constructor.
    + rewrite in_app_iff. cbn. intros [H|[H|[]]]; [tauto|]. subst. tauto.
    + apply IH; tauto.
Qed.

Lemma find_existsb {R : Type} (f : R -> bool) (l : list R) :
  existsb f l = match find f l with Some _ => true | None => false end.
Proof.
  induction l as [|a l IH]; [reflexivity|]. cbn. now destruct (f a).
Qed.

Lemma find_snoc {R : Type} (f : R -> bool) (l : list R) (x : R) :
  find f (l ++ [x])
  = match find f l with
    | Some y => Some y
    | None => if f x then Some x else None
    end.
Proof.
  induction l as [|a l IH]; [reflexivity|]. cbn. now destruct (f a).
Qed.

(** The registration handler by its four tests. *)
Lemma create_user_outcome (user : UserCreate.t) (r : salt) (s : Store float) :
  create_user user r s =
  if email_taken (UserCreate.email user) (users s)
  then (Raise (HTTPException 400 "Email already registered"), s)
  else if (4096 <? String.length (UserCreate.password user))%nat
  then (Raise PasswordSizeError, s)
  else if has_NUL (UserCreate.password user)
  then (Raise PasswordValueError, s)
  else if username_taken (UserCreate.username user) (users s)
  then (Raise IntegrityError, s)
  else (Return (UserResponse.from_orm (new_user_row user r s)),
        mkStore (users s ++ [new_user_row user r s]) (movies s) (ratings s)).
Proof.
  rewrite create_user_cases. unfold email_taken at 1. rewrite find_existsb.
  destruct (find _ (users s)) eqn:F; [reflexivity|].
  unfold get_password_hash, pwd_context_hash.
  destruct (4096 <? String.length (UserCreate.password user))%nat;
    [reflexivity|].
  destruct (has_NUL (UserCreate.password user)); [reflexivity|]. cbn zeta.
  fold (new_user_row user r s). unfold users_unique_ok.
  cbn [new_user_row User.username User.email].
  fold (username_taken (UserCreate.username user) (users s)).
  fold (email_taken (UserCreate.email user) (users s)).
  unfold email_taken at 1. rewrite find_existsb, F.
  now destruct (username_taken _ (users s)).
Qed.

Lemma create_user_store (user : UserCreate.t) (r : salt) (s : Store float) :
  snd (create_user user r s) =
  if registration_accepted user s
  then mkStore (users s ++ [new_user_row user r s]) (movies s) (ratings s)
  else s.
Proof.
  rewrite create_user_outcome. unfold registration_accepted.
  destruct (email_taken _ (users s)); [reflexivity|].
  destruct (4096 <? String.length (UserCreate.password user))%nat;
    [reflexivity|].
  destruct (has_NUL (UserCreate.password user)); [reflexivity|].
  now destruct (username_taken _ (users s)).
Qed.

(** The movie handler by its one test. *)
Lemma create_movie_outcome (movie : MovieCreate.t) (s : Store float) :
  create_movie movie s =
  if movie_storable movie
  then (Return (MovieResponse.from_orm (new_movie_row movie s)),
        mkStore (users s) (movies s ++ [new_movie_row movie s]) (ratings s))
  else (Raise UnicodeEncodeError, s).
Proof.
  unfold create_movie, bind, add_commit_refresh_Movie, movie_storable.
  cbn [Movie.title Movie.description].
  now destruct (utf8_encodable (MovieCreate.title movie)
                && utf8_encodable (MovieCreate.description movie)).
Qed.

(** The rating handler by its one test. *)
Lemma create_rating_outcome
  (rating : RatingCreate.t float) (s : Store float) :
  create_rating rating s =
  if rating_storable rating
  then (Return (new_rating_row rating s),
        mkStore (users s) (movies s) (ratings s ++ [new_rating_row rating s]))
  else (Raise OverflowError, s).
Proof.
  unfold create_rating, bind, add_commit_refresh_Rating, rating_storable.
  cbn [Rating.movie_id Rating.user_id Rating.rating Rating.id].
  now destruct (int64_ok (RatingCreate.movie_id rating)
                && int64_ok (RatingCreate.user_id rating)).
Qed.

(** The store a request leaves, route by route. *)
Lemma app_store (req : Request) (s : Store float) :
  snd (app req s) =
  match req with
  | POST_register user r =>
      if registration_accepted user s
      then mkStore (users s ++ [new_user_row user r s]) (movies s) (ratings s)
      else s
  | POST_movies movie =>
      if movie_storable movie
      then mkStore (users s) (movies s ++ [new_movie_row movie s]) (ratings s)
      else s
  | POST_ratings rating =>
      if rating_storable rating
      then mkStore (users s) (movies s) (ratings s ++ [new_rating_row rating s])
      else s
  | GET_recommendations _ => s
  | GET_root => s
  end.
Proof.
  destruct req as [user r|movie|rating|uid|]; try reflexivity.
  - rewrite <- create_user_store. unfold app, bind.
    now destruct (create_user user r s) as [[u|e] s'].
  - unfold app, bind. rewrite create_movie_outcome.
    now destruct (movie_storable movie).
  - unfold app, bind. rewrite create_rating_outcome.
    destruct (rating_storable rating); [|reflexivity].
    unfold respond_Rating.
    now destruct (RatingResponse.from_orm (new_rating_row rating s)).
Qed.

(** Only a registration writes to [users], and it appends one row whose
    username is not in the table yet. *)
Lemma app_users (req : Request) (s : Store float) :
  users (snd (app req s)) = users s \/
  exists row, users (snd (app req s)) = users s ++ [row] /\
              ~ In (User.username row) (map User.username (users s)).
Proof.
  rewrite app_store. destruct req as [user r|movie|rating|uid|];
    try (left; reflexivity).
  - destruct (registration_accepted user s) eqn:A; [|left; reflexivity].
    right. exists (new_user_row user r s). split; [reflexivity|].
    unfold registration_accepted in A.
    apply andb_true_iff in A as [_ A]. apply negb_true_iff in A.
    now apply existsb_username_false in A.
  - left. now destruct (movie_storable movie).
  - left. now destruct (rating_storable rating).
Qed.

Lemma reachable_usernames_NoDup (s : Store float) :
  reachable s -> NoDup (map User.username (users s)).
Proof.
  induction 1 as [|req s Hs IH]; [constructor|].
  destruct (app_users req s) as [E|[row [E Hnew]]]; rewrite E; [exact IH|].
  rewrite map_app. cbn. now apply NoDup_snoc.
Qed.

(** ** Keys *)

Lemma fold_left_max_le (rest : list Z) (i x : Z) :
  In x (i :: rest) -> x <= fold_left Z.max rest i.
Proof.
  revert i x. induction rest as [|a rest IH]; intros i x H.
  - destruct H as [E|[]]. subst. cbn. lia.
  - cbn [fold_left].
    pose proof (IH (Z.max i a) (Z.max i a) (or_introl eq_refl)) as M.
    destruct H as [E|[E|H]].
    + subst. lia.
    + subst. lia.
    + apply IH. now right.
Qed.

Lemma fold_left_max_in (rest : list Z) (i : Z) :
  In (fold_left Z.max rest i) (i :: rest).
Proof.
  revert i. induction rest as [|a rest IH]; intros i; [now left|].
  cbn [fold_left]. destruct (IH (Z.max i a)) as [E|H].
  - rewrite <- E.
    destruct (Z.max_spec i a) as [[_ M]|[_ M]]; rewrite M; cbn; auto.
  - right. right. exact H.
Qed.


Lemma next_rowid_first_keys (n : nat) :
  next_rowid (first_keys n) = Z.of_nat n + 1.
Proof.
  destruct n as [|n]; [reflexivity|]. unfold first_keys.
  assert (Hin : In (Z.of_nat (S n)) (map Z.of_nat (seq 1 (S n)))).
  { apply in_map, in_seq. lia. }
  assert (Hle : forall x, In x (map Z.of_nat (seq 1 (S n))) ->
                          x <= Z.of_nat (S n)).
  { intros x Hx. apply in_map_iff in Hx as [k [<- Hk]].
    apply in_seq in Hk. lia. }
  cbn [seq map] in *. cbn [next_rowid].
  pose proof (fold_left_max_in (map Z.of_nat (seq 2 n)) (Z.of_nat 1)) as M.
  apply Hle in M. apply fold_left_max_le in Hin. lia.
Qed.

Lemma first_keys_S (n : nat) :
  first_keys (S n) = first_keys n ++ [Z.of_nat n + 1].
Proof.
  unfold first_keys. rewrite seq_S, map_app. cbn [map]. do 2 f_equal. lia.
Qed.

(** Appending a row under the next key keeps the keys in sequence. *)
Lemma first_keys_snoc {R : Type} (key : R -> Z) (rows : list R) (row : R) :
  map key rows = first_keys (List.length rows) ->
  key row = next_rowid (map key rows) ->
  map key (rows ++ [row]) = first_keys (List.length (rows ++ [row])).
Proof.
  intros Hrows Hrow. rewrite map_app, length_app. cbn [map List.length].
  replace (List.length rows + 1)%nat with (S (List.length rows)) by lia.
  rewrite first_keys_S, Hrow, Hrows. now rewrite next_rowid_first_keys.
Qed.

Lemma first_keys_NoDup (n : nat) : NoDup (first_keys n).
Proof.
  induction n as [|n IH]; [constructor|].
  rewrite first_keys_S. apply NoDup_snoc; [exact IH|].
  unfold first_keys. intros H. apply in_map_iff in H as [k [E Hk]].
  apply in_seq in Hk. lia.
Qed.

(** ** The UNIQUE columns *)

Lemma existsb_email_false (e : string) (table : list User.t) :
  email_taken e table = false -> ~ In e (map User.email table).
Proof.
  unfold email_taken. induction table as [|u table IH]; cbn; [tauto|].
  intros H. apply orb_false_iff in H as [Hu Ht].
  apply String.eqb_neq in Hu. intros [E|E]; [contradiction|].
  now apply IH.
Qed.

Lemma email_taken_iff (e : string) (table : list User.t) :
  email_taken e table = true <-> exists u, In u table /\ User.email u = e.
Proof.
  unfold email_taken. rewrite existsb_exists.
  split; intros [u [Hin H]]; exists u; split; auto; now apply String.eqb_eq.
Qed.

Lemma username_taken_iff (n : string) (table : list User.t) :
  username_taken n table = true <->
  exists u, In u table /\ User.username u = n.
Proof.
  unfold username_taken. rewrite existsb_exists.
  split; intros [u [Hin H]]; exists u; split; auto; now apply String.eqb_eq.
Qed.

Lemma email_fresh_iff (e : string) (table : list User.t) :
  email_taken e table = false <->
  forall u, In u table -> User.email u <> e.
Proof.
  split.
  - intros F u Hin E.
    assert (T : email_taken e table = true) by (apply email_taken_iff; eauto).
    congruence.
  - intros H. destruct (email_taken e table) eqn:T; [|reflexivity].
    apply email_taken_iff in T as [u [Hin E]]. now apply H in Hin.
Qed.


(** ** Single requests and runs *)

(** Every request leaves each table as it was or with rows added at the
    end. *)
Lemma app_extends (req : Request) (s : Store float) :
  exists lu lm lr,
    users (snd (app req s)) = users s ++ lu /\
    movies (snd (app req s)) = movies s ++ lm /\
    ratings (snd (app req s)) = ratings s ++ lr.
Proof.
  rewrite app_store. destruct req as [user r|movie|rating|uid|].
  - destruct (registration_accepted user s);
      [|exists [], [], []; now rewrite !app_nil_r].
    exists [new_user_row user r s], [], []. cbn. now rewrite !app_nil_r.
  - destruct (movie_storable movie);
      [|exists [], [], []; now rewrite !app_nil_r].
    exists [], [new_movie_row movie s], []. cbn. now rewrite !app_nil_r.
  - destruct (rating_storable rating);
      [|exists [], [], []; now rewrite !app_nil_r].
    exists [], [], [new_rating_row rating s]. cbn. now rewrite !app_nil_r.
  - exists [], [], []; now rewrite !app_nil_r.
  - exists [], [], []; now rewrite !app_nil_r.
Qed.

Lemma run_extends (reqs : list Request) (s : Store float) :
  exists lu lm lr,
    users (run reqs s) = users s ++ lu /\
    movies (run reqs s) = movies s ++ lm /\
    ratings (run reqs s) = ratings s ++ lr.
Proof.
  revert s. induction reqs as [|req reqs IH]; intros s.
  - exists [], [], []; cbn; now rewrite !app_nil_r.
  - cbn [run]. destruct (IH (snd (app req s))) as [lu [lm [lr [U [M R]]]]].
    destruct (app_extends req s) as [lu0 [lm0 [lr0 [U0 [M0 R0]]]]].
    exists (lu0 ++ lu), (lm0 ++ lm), (lr0 ++ lr).
    rewrite U, M, R, U0, M0, R0. now rewrite !app_assoc.
Qed.

Lemma run_reachable (reqs : list Request) (s : Store float) :
  reachable s -> reachable (run reqs s).
Proof.
  revert s. induction reqs as [|req reqs IH]; intros s H; [exact H|].
  cbn [run]. apply IH. now apply reachable_step.
Qed.

Lemma app_keys_in_sequence (req : Request) (s : Store float) :
  keys_in_sequence s -> keys_in_sequence (snd (app req s)).
Proof.
  intros [U [M R]]. rewrite app_store.
  destruct req as [user r|movie|rating|uid|]; try (now repeat split).
  - destruct (registration_accepted user s); [|now repeat split].
    split; [|now split]. cbn [users]. now apply first_keys_snoc.
  - destruct (movie_storable movie); [|now repeat split].
    split; [exact U|]. split; [|exact R]. cbn [movies].
    now apply first_keys_snoc.
  - destruct (rating_storable rating); [|now repeat split].
    split; [exact U|]. split; [exact M|]. cbn [ratings].
    now apply first_keys_snoc.
Qed.

Lemma reachable_keys_in_sequence (s : Store float) :
  reachable s -> keys_in_sequence s.
Proof.
  induction 1 as [|req s Hs IH]; [now repeat split|].
  now apply app_keys_in_sequence.
Qed.

Lemma registration_accepted_email (user : UserCreate.t) (s : Store float) :
  registration_accepted user s = true ->
  email_taken (UserCreate.email user) (users s) = false.
Proof.
  unfold registration_accepted. intros A.
  apply andb_true_iff in A as [A _]. apply andb_true_iff in A as [A _].
  apply andb_true_iff in A as [A _]. now apply negb_true_iff in A.
Qed.

Lemma registration_accepted_password
  (user : UserCreate.t) (s : Store float) (r : salt) :
  registration_accepted user s = true ->
  get_password_hash r (UserCreate.password user)
  = Return (bcrypt_digest r (UserCreate.password user)).
Proof.
  unfold registration_accepted, get_password_hash, pwd_context_hash.
  intros A.
  apply andb_true_iff in A as [A _]. apply andb_true_iff in A as [A N].
  apply andb_true_iff in A as [_ L].
  apply negb_true_iff in N. apply negb_true_iff in L. now rewrite L, N.
Qed.

Lemma reachable_emails (s : Store float) :
  reachable s -> NoDup (map User.email (users s)).
Proof.
  induction 1 as [|req s Hs IH]; [constructor|].
  rewrite app_store. destruct req as [user r|movie|rating|uid|]; auto.
  - destruct (registration_accepted user s) eqn:A; [|exact IH].
    cbn [users]. rewrite map_app. cbn [map new_user_row User.email].
    apply NoDup_snoc; [exact IH|].
    apply existsb_email_false. now apply registration_accepted_email.
  - now destruct (movie_storable movie).
  - now destruct (rating_storable rating).
Qed.

Lemma reachable_hashes (s : Store float) :
  reachable s ->
  forall u, In u (users s) ->
  exists r p, get_password_hash r p = Return (User.hashed_password u).
Proof.
  induction 1 as [|req s Hs IH]; [intros u []|].
  rewrite app_store. destruct req as [user r|movie|rating|uid|]; auto.
  - destruct (registration_accepted user s) eqn:A; [|exact IH].
    cbn [users]. intros u Hin. apply in_app_iff in Hin as [Hin|[<-|[]]].
    + now apply IH.
    + exists r, (UserCreate.password user).
      now apply registration_accepted_password with (s := s).
  - now destruct (movie_storable movie).
  - now destruct (rating_storable rating).
Qed.

(** In a table without a repeated email, the query on a row's email finds
    that row. *)
Lemma find_by_email_unique (table : list User.t) (u : User.t) :
  NoDup (map User.email table) -> In u table ->
  find (fun v => String.eqb (User.email v) (User.email u)) table = Some u.
Proof.
  induction table as [|a table IH]; [intros _ []|].
  cbn [map find]. intros N Hin. inversion N as [|? ? Ha N']; subst.
  destruct (String.eqb (User.email a) (User.email u)) eqn:E.
  - destruct Hin as [->|Hin]; [reflexivity|].
    apply String.eqb_eq in E. exfalso. apply Ha. rewrite E.
    now apply in_map.
  - destruct Hin as [->|Hin]; [now rewrite String.eqb_refl in E|].
    now apply IH.
Qed.

Lemma nth_error_extends {R : Type} (l l' : list R) (n : nat) (x : R) :
  nth_error l n = Some x -> nth_error (l ++ l') n = Some x.
Proof.
  intros H. rewrite nth_error_app1; [exact H|].
  apply nth_error_Some. congruence.
Qed.

(** ** Registration *)

(** C1: in a store that already holds a user with the email of the request,
    registration fails with HTTP 400 and the detail "Email already
    registered"; and a registration that succeeds was made in a store where
    no user had that email. *)
Theorem create_user_email_conflict
  (user : UserCreate.t) (r : salt) (s : Store float) :
  ((exists u, In u (users s) /\ User.email u = UserCreate.email user) ->
   fst (create_user user r s)
   = Raise (HTTPException 400 "Email already registered"))
  /\
  (forall resp, fst (create_user user r s) = Return resp ->
   forall u, In u (users s) -> User.email u <> UserCreate.email user).
Proof.
  rewrite create_user_cases. split.
  - intros Htaken. apply find_email_taken in Htaken as [v ->]. reflexivity.
  - intros resp Hok u Hin.
    destruct (find _ (users s)) as [v|] eqn:F; [discriminate|].
    apply (find_none _ _ F) in Hin. now apply String.eqb_neq in Hin.
Qed.

(** C3: the body of a successful registration is the JSON object with
    exactly the members id, username and email, in that order, carrying the
    values of the row just stored; it has no member for the hash and none
    for the password. *)
Theorem create_user_response_payload
  (user : UserCreate.t) (r : salt) (s s' : Store float)
  (resp : UserResponse.t) :
  create_user user r s = (Return resp, s') ->
  exists row,
    users s' = users s ++ [row] /\
    User.username row = UserCreate.username user /\
    User.email row = UserCreate.email user /\
    UserResponse_payload resp
    = [ ("id", JInt (User.id row));
        ("username", JStr (User.username row));
        ("email", JStr (User.email row)) ] /\
    keys (UserResponse_payload resp) = ["id"; "username"; "email"] /\
    member "hashed_password" (UserResponse_payload resp) = None /\
    member "password" (UserResponse_payload resp) = None.
Proof.
  rewrite create_user_cases.
  destruct (find _ (users s)); [discriminate|].
  destruct (get_password_hash r (UserCreate.password user)) as [h|e];
    [|discriminate]. cbn zeta.
  match goal with |- context [users_unique_ok ?x _] => set (row := x) end.
  destruct (users_unique_ok row (users s)); [|discriminate].
  intros H. injection H as <- <-. exists row. cbn. repeat split.
Qed.

(** C7: after a successful registration with password p the row added to
    [users] has [hashed_password] equal to the digest [pwd_context.hash]
    returns for p, and the row is the only thing written.  The password
    itself is stored nowhere: a request with the same username and email
    whose password hashes to the same value leaves the same store and gets
    the same response, whatever that password is. *)
Theorem create_user_stores_hash
  (user : UserCreate.t) (r : salt) (s s' : Store float)
  (resp : UserResponse.t) :
  create_user user r s = (Return resp, s') ->
  (exists row,
     users s' = users s ++ [row] /\
     movies s' = movies s /\
     ratings s' = ratings s /\
     User.id row = UserResponse.id resp /\
     User.username row = UserCreate.username user /\
     User.email row = UserCreate.email user /\
     User.hashed_password row = bcrypt_digest r (UserCreate.password user) /\
     pwd_context_hash r (UserCreate.password user)
     = Return (User.hashed_password row))
  /\
  (forall user' r',
     UserCreate.username user' = UserCreate.username user ->
     UserCreate.email user' = UserCreate.email user ->
     pwd_context_hash r' (UserCreate.password user')
     = pwd_context_hash r (UserCreate.password user) ->
     create_user user' r' s = (Return resp, s')).
Proof.
  intros H. split.
  - rewrite create_user_outcome in H.
    destruct (email_taken _ (users s)); [discriminate|].
    unfold pwd_context_hash.
    destruct (4096 <? String.length (UserCreate.password user))%nat;
      [discriminate|].
    destruct (has_NUL (UserCreate.password user)); [discriminate|].
    destruct (username_taken _ (users s)); [discriminate|].
    injection H as <- <-. exists (new_user_row user r s). cbn. repeat split.
  - intros user' r' Hn He Hh. rewrite create_user_cases in H |- *.
    unfold get_password_hash in *. rewrite Hn, He, Hh. exact H.
Qed.

(** C9: when registration fails with the duplicate-email error, the store
    after the request is the store before it: the three tables are the
    same lists. *)
Theorem create_user_conflict_store_unchanged
  (user : UserCreate.t) (r : salt) (s : Store float) :
  fst (create_user user r s)
  = Raise (HTTPException 400 "Email already registered") ->
  snd (create_user user r s) = s /\
  users (snd (create_user user r s)) = users s /\
  movies (snd (create_user user r s)) = movies s /\
  ratings (snd (create_user user r s)) = ratings s.
Proof.
  rewrite create_user_cases.
  destruct (find _ (users s)); [intros _; cbn; auto|].
  destruct (get_password_hash r (UserCreate.password user)) as [h|e];
    [|cbn; auto]. cbn zeta.
  destruct (users_unique_ok _ (users s)); cbn; [discriminate|auto].
Qed.

(** C4, as the code has it: the handler makes no existence check on the
    username, yet a taken username is not accepted.  In any store holding a
    user named u, a registration for u with an email nobody has raises and
    leaves the store as it was; hence no store the service can reach holds
    two users with one username. *)
Theorem username_unique_by_constraint
  (user : UserCreate.t) (r : salt) (s : Store float) :
  ((exists u, In u (users s) /\ User.username u = UserCreate.username user) ->
   (forall u, In u (users s) -> User.email u <> UserCreate.email user) ->
   exists e, create_user user r s = (Raise e, s))
  /\
  (reachable s -> NoDup (map User.username (users s))).
Proof.
  split; [|apply reachable_usernames_NoDup].
  intros Htaken Hfresh. rewrite create_user_outcome.
  apply email_fresh_iff in Hfresh. apply username_taken_iff in Htaken.
  rewrite Hfresh, Htaken.
  destruct (4096 <? String.length (UserCreate.password user))%nat;
    [eauto|].
  destruct (has_NUL (UserCreate.password user)); eauto.
Qed.

(** ** Movies, ratings and recommendations *)

(** C8, as the code has it: for every title and description the driver can
    encode as UTF-8 the handler returns the record made of the new key and
    these two fields, and the store after it is the store before it with
    that one row appended to [movies]. *)
Theorem create_movie_inserts (movie : MovieCreate.t) (s : Store float) :
  utf8_encodable (MovieCreate.title movie) = true ->
  utf8_encodable (MovieCreate.description movie) = true ->
  let pk := next_rowid (map Movie.id (movies s)) in
  create_movie movie s
  = (Return (MovieResponse.mk pk (MovieCreate.title movie)
                              (MovieCreate.description movie)),
     mkStore (users s)
             (movies s ++ [Movie.mk pk (MovieCreate.title movie)
                                    (MovieCreate.description movie)])
             (ratings s)).
Proof.
  intros Ht Hd. cbn zeta. rewrite create_movie_outcome.
  unfold movie_storable. now rewrite Ht, Hd.
Qed.


(** C2: for every store and user id the handler returns one record per
    movie of the store, in the order of the table, each with the id, title
    and description of its movie: a record is returned exactly when a
    stored movie has its three fields.  After a movie creation that
    returned a record, the row with the request's title and description is
    in [movies] and the returned record is in the recommendations asked
    next, for any user id. *)
Theorem get_recommendations_all_movies
  (user_id : Z) (s : Store float) (movie : MovieCreate.t) :
  (exists l,
     get_recommendations user_id s = (Return l, s) /\
     l = map (fun m => MovieResponse.mk (Movie.id m) (Movie.title m)
                                        (Movie.description m))
             (movies s) /\
     forall x, In x l <->
               exists m, In m (movies s) /\
                         MovieResponse.id x = Movie.id m /\
                         MovieResponse.title x = Movie.title m /\
                         MovieResponse.description x = Movie.description m)
  /\
  (forall created,
     fst (create_movie movie s) = Return created ->
     MovieResponse.title created = MovieCreate.title movie /\
     MovieResponse.description created = MovieCreate.description movie /\
     In (Movie.mk (MovieResponse.id created) (MovieCreate.title movie)
                  (MovieCreate.description movie))
        (movies (snd (create_movie movie s))) /\
     exists l,
       fst (get_recommendations user_id (snd (create_movie movie s)))
       = Return l /\
       In created l).
Proof.
  split.
  - eexists. split; [reflexivity|]. split; [reflexivity|].
    intros x. rewrite in_map_iff. split.
    + intros [m [<- Hin]]. exists m. cbn. auto.
    + intros [m [Hin [Hi [Ht Hd]]]]. exists m. split; [|exact Hin].
      destruct x as [i t d]. cbn in *. now subst.
  - intros created. rewrite create_movie_outcome.
    destruct (movie_storable movie); [|discriminate].
    cbn [fst snd]. intros H. injection H as <-. cbn.
    repeat split.
    + rewrite in_app_iff. right. now left.
    + eexists. split; [reflexivity|].
      rewrite map_app, in_app_iff. right. now left.
Qed.

(** C6: in one store, the handler gives the same outcome for any two user
    ids. *)
Theorem get_recommendations_ignores_user_id
  (u1 u2 : Z) (s : Store float) :
  get_recommendations u1 s = get_recommendations u2 s.
Proof. reflexivity. Qed.

(** C10: the recommendation handler and the root endpoint write nothing:
    after either request the users, movies and ratings tables are the
    lists they were. *)
Theorem read_only_endpoints (user_id : Z) (s : Store float) :
  snd (get_recommendations user_id s) = s /\
  (let s' := snd (app (GET_recommendations user_id) s) in
   users s' = users s /\ movies s' = movies s /\ ratings s' = ratings s) /\
  (let s' := snd (app GET_root s) in
   users s' = users s /\ movies s' = movies s /\ ratings s' = ratings s).
Proof. cbn. repeat split. Qed.

(** ** Invariants of the stores the service can reach *)

(** X1: in every store the service can reach, the keys of each table are
    1, 2, ..., n in the order the rows were inserted; in particular no key
    occurs twice in a table. *)
Theorem reachable_keys_count_up (s : Store float) :
  reachable s ->
  keys_in_sequence s /\
  NoDup (map User.id (users s)) /\
  NoDup (map Movie.id (movies s)) /\
  NoDup (map (@Rating.id float) (ratings s)).
Proof.
  intros H. pose proof (reachable_keys_in_sequence H) as K.
  split; [exact K|]. destruct K as [U [M R]].
  rewrite U, M, R. repeat split; apply first_keys_NoDup.
Qed.

(** X2: no store the service can reach holds two users with the same
    email. *)
Theorem reachable_emails_NoDup (s : Store float) :
  reachable s -> NoDup (map User.email (users s)).
Proof. apply reachable_emails. Qed.

(** X3: in every store the service can reach, the [hashed_password] of
    every user is an output of the password hash. *)
Theorem reachable_hashed_passwords (s : Store float) (u : User.t) :
  reachable s -> In u (users s) ->
  exists r p, get_password_hash r p = Return (User.hashed_password u).
Proof. intros H. now apply reachable_hashes. Qed.

(** X4: in every store the service can reach, the email query of the
    registration handler, asked for the email of a stored user, returns
    that very user and leaves the store alone. *)
Theorem reachable_query_by_email (s : Store float) (u : User.t) :
  reachable s -> In u (users s) ->
  query_User_by_email_first (User.email u) s = (Return (Some u), s).
Proof.
  intros H Hin. unfold query_User_by_email_first.
  rewrite find_by_email_unique;
    [reflexivity|now apply reachable_emails|exact Hin].
Qed.

(** ** Outcomes of a registration *)



(** X7: among the passwords the hash accepts, the outcome of a
    registration, error or response, is the same whatever the password
    sent and the salt drawn. *)
Theorem create_user_response_ignores_password
  (n e p p' : string) (r r' : salt) (s : Store float) :
  (String.length p <= 4096)%nat -> has_NUL p = false ->
  (String.length p' <= 4096)%nat -> has_NUL p' = false ->
  fst (create_user (UserCreate.mk n e p) r s)
  = fst (create_user (UserCreate.mk n e p') r' s).
Proof.
  intros L N L' N'. rewrite !create_user_outcome.
  cbn [UserCreate.email UserCreate.username UserCreate.password].
  rewrite N, N'.
  destruct (Nat.ltb_spec 4096 (String.length p)); [lia|].
  destruct (Nat.ltb_spec 4096 (String.length p')); [lia|].
  destruct (email_taken e (users s)); [reflexivity|].
  destruct (username_taken n (users s)); reflexivity.
Qed.

(** X8: right after a successful registration, the email query of the
    handler, asked for the registered email, returns the row just stored:
    the key of the response, the username and email of the request and the
    hash of its password. *)
Theorem create_user_then_query
  (user : UserCreate.t) (r : salt) (s : Store float)
  (resp : UserResponse.t) :
  fst (create_user user r s) = Return resp ->
  fst (query_User_by_email_first (UserCreate.email user)
                                 (snd (create_user user r s)))
  = Return (Some (User.mk (UserResponse.id resp)
                          (UserCreate.username user)
                          (UserCreate.email user)
                          (bcrypt_digest r (UserCreate.password user)))).
Proof.
  rewrite create_user_outcome.
  destruct (email_taken _ (users s)) eqn:E; [discriminate|].
  destruct (4096 <? String.length (UserCreate.password user))%nat;
    [discriminate|].
  destruct (has_NUL (UserCreate.password user)); [discriminate|].
  destruct (username_taken _ (users s)); [discriminate|].
  cbn [fst snd]. intros H. injection H as <-.
  unfold query_User_by_email_first. cbn [fst users].
  unfold email_taken in E. rewrite find_existsb in E. rewrite find_snoc.
  destruct (find _ (users s)); [discriminate|].
  cbn [new_user_row User.email]. now rewrite String.eqb_refl.
Qed.

(** ** What one request does to the store *)

(** X9: a request writes to the table of its route only, and at most one
    row, at the end: a registration to [users], a movie creation to
    [movies], a rating creation to [ratings]; the two GET routes leave the
    store as it was. *)
Theorem app_writes_one_table (req : Request) (s : Store float) :
  match req with
  | POST_register _ _ =>
      movies (snd (app req s)) = movies s /\
      ratings (snd (app req s)) = ratings s /\
      (users (snd (app req s)) = users s \/
       exists row, users (snd (app req s)) = users s ++ [row])
  | POST_movies _ =>
      users (snd (app req s)) = users s /\
      ratings (snd (app req s)) = ratings s /\
      (movies (snd (app req s)) = movies s \/
       exists row, movies (snd (app req s)) = movies s ++ [row])
  | POST_ratings _ =>
      users (snd (app req s)) = users s /\
      movies (snd (app req s)) = movies s /\
      (ratings (snd (app req s)) = ratings s \/
       exists row, ratings (snd (app req s)) = ratings s ++ [row])
  | GET_recommendations _ => snd (app req s) = s
  | GET_root => snd (app req s) = s
  end.
Proof.
  rewrite app_store. destruct req as [user r|movie|rating|uid|];
    try reflexivity.
  - destruct (registration_accepted user s); [|auto].
    cbn. repeat split. right. eauto.
  - destruct (movie_storable movie); [|auto].
    cbn. repeat split. right. eauto.
  - destruct (rating_storable rating); [|auto].
    cbn. repeat split. right. eauto.
Qed.



(** ** Runs of requests *)

(** X12: no run of requests deletes, changes or moves a row: a row found
    at a position of a table before the run is found at the same position
    after it. *)
Theorem run_keeps_rows (reqs : list Request) (s : Store float) (n : nat) :
  (forall u, nth_error (users s) n = Some u ->
             nth_error (users (run reqs s)) n = Some u) /\
  (forall m, nth_error (movies s) n = Some m ->
             nth_error (movies (run reqs s)) n = Some m) /\
  (forall x, nth_error (ratings s) n = Some x ->
             nth_error (ratings (run reqs s)) n = Some x).
Proof.
  destruct (run_extends reqs s) as [lu [lm [lr [U [M R]]]]].
  rewrite U, M, R. repeat split; intros; now apply nth_error_extends.
Qed.

(** X13: an email registered once stays taken: after a successful
    registration and any run of further requests, every registration with
    the same email ends in the HTTP 400 error and changes nothing. *)
Theorem registered_email_stays_taken
  (user user' : UserCreate.t) (r r' : salt) (s : Store float)
  (resp : UserResponse.t) (reqs : list Request) :
  fst (create_user user r s) = Return resp ->
  UserCreate.email user' = UserCreate.email user ->
  create_user user' r' (run reqs (snd (create_user user r s)))
  = (Raise (HTTPException 400 "Email already registered"),
     run reqs (snd (create_user user r s))).
Proof.
  intros Hok He. rewrite create_user_store.
  rewrite create_user_outcome in Hok. unfold registration_accepted.
  destruct (email_taken _ (users s)); [discriminate|].
  destruct (4096 <? String.length (UserCreate.password user))%nat;
    [discriminate|].
  destruct (has_NUL (UserCreate.password user)); [discriminate|].
  destruct (username_taken _ (users s)); [discriminate|]. cbn [negb andb].
  match goal with |- context [run reqs ?s1] => set (s' := s1) end.
  destruct (run_extends reqs s') as [lu [lm [lr [U _]]]].
  rewrite create_user_outcome.
  assert (T : email_taken (UserCreate.email user') (users (run reqs s'))
              = true).
  { apply email_taken_iff. exists (new_user_row user r s). split.
    - rewrite U. unfold s'. cbn [users]. rewrite !in_app_iff.
      left. right. now left.
    - now rewrite He. }
  now rewrite T.
Qed.

(** X14: a movie created once stays recommended: after any run of further
    requests the record returned by the creation is in the recommendations
    of every user id. *)
Theorem created_movie_stays_recommended
  (movie : MovieCreate.t) (s : Store float) (reqs : list Request)
  (user_id : Z) (created : MovieResponse.t) :
  fst (create_movie movie s) = Return created ->
  exists l,
    fst (get_recommendations user_id
           (run reqs (snd (create_movie movie s)))) = Return l /\
    In created l.
Proof.
  rewrite create_movie_outcome.
  destruct (movie_storable movie); [|discriminate].
  cbn [fst snd]. intros H. injection H as <-.
  eexists. split; [reflexivity|].
  match goal with |- context [run reqs ?s1] => set (s' := s1) end.
  destruct (run_extends reqs s') as [lu [lm [lr [_ [M _]]]]].
  rewrite M. unfold s'. cbn [movies]. rewrite !map_app, !in_app_iff.
  left. right. now left.
Qed.

Lemma app_counts (req : Request) (s : Store float) :
  (List.length (movies (snd (app req s)))
   = List.length (movies s) + (if is_stored_movie req then 1 else 0))%nat /\
  (List.length (ratings (snd (app req s)))
   = List.length (ratings s) + (if is_stored_rating req then 1 else 0))%nat /\
  (List.length (users s) <= List.length (users (snd (app req s)))
   <= List.length (users s) + (if is_POST_register req then 1 else 0))%nat.
Proof.
  rewrite app_store. destruct req as [user r|movie|rating|uid|];
    cbn [is_POST_register].
  - cbn [is_stored_movie is_stored_rating].
    destruct (registration_accepted user s); [|lia].
    cbn [users movies ratings]. rewrite length_app. cbn. lia.
  - cbn [is_stored_movie is_stored_rating].
    destruct (movie_storable movie); [|lia].
    cbn [users movies ratings]. rewrite length_app. cbn. lia.
  - cbn [is_stored_movie is_stored_rating].
    destruct (rating_storable rating); [|lia].
    cbn [users movies ratings]. rewrite length_app. cbn. lia.
  - cbn. lia.
  - cbn. lia.
Qed.

(** X15: over any run, the movies grow by exactly the number of movie
    creations whose title and description encode as UTF-8, and the ratings
    by exactly the number of rating creations whose two ids fit in 64
    bits; the users grow by at most the number of registrations, and never
    shrink. *)
Theorem run_counts (reqs : list Request) (s : Store float) :
  (List.length (movies (run reqs s))
   = List.length (movies s)
     + List.length (filter is_stored_movie reqs))%nat /\
  (List.length (ratings (run reqs s))
   = List.length (ratings s)
     + List.length (filter is_stored_rating reqs))%nat /\
  (List.length (users s) <= List.length (users (run reqs s))
   <= List.length (users s)
      + List.length (filter is_POST_register reqs))%nat.
Proof.
  revert s. induction reqs as [|req reqs IH]; intros s; [cbn; lia|].
  cbn [run filter]. specialize (IH (snd (app req s))).
  pose proof (app_counts req s) as C.
  destruct (is_stored_movie req), (is_stored_rating req),
    (is_POST_register req); cbn [List.length]; lia.
Qed.

(** X16: in a store the service can reach, the key of a record or object
    returned for a new movie, rating or user is the number of rows of its
    table plus one. *)
Theorem created_ids_count_rows (s : Store float) :
  reachable s ->
  (forall movie m,
     fst (create_movie movie s) = Return m ->
     MovieResponse.id m = Z.of_nat (List.length (movies s)) + 1) /\
  (forall rating x,
     fst (create_rating rating s) = Return x ->
     Rating.id x = Z.of_nat (List.length (ratings s)) + 1) /\
  (forall user r resp,
     fst (create_user user r s) = Return resp ->
     UserResponse.id resp = Z.of_nat (List.length (users s)) + 1).
Proof.
  intros H. destruct (reachable_keys_in_sequence H) as [U [M R]].
  split; [|split].
  - intros movie m. rewrite create_movie_outcome.
    destruct (movie_storable movie); [|discriminate].
    cbn [fst]. intros E. injection E as <-. cbn.
    now rewrite M, next_rowid_first_keys.
  - intros rating x. rewrite create_rating_outcome.
    destruct (rating_storable rating); [|discriminate].
    cbn [fst]. intros E. injection E as <-. cbn.
    now rewrite R, next_rowid_first_keys.
  - intros user r resp. rewrite create_user_outcome.
    destruct (email_taken _ (users s)); [discriminate|].
    destruct (4096 <? String.length (UserCreate.password user))%nat;
      [discriminate|].
    destruct (has_NUL (UserCreate.password user)); [discriminate|].
    destruct (username_taken _ (users s)); [discriminate|].
    cbn [fst]. intros E. injection E as <-. cbn.
    now rewrite U, next_rowid_first_keys.
Qed.

(** ** The session of a request *)

(** X17: served through [get_db], a request has the outcome of its handler
    and leaves the store its handler left, and the number of open sessions
    after the request is the number before it, whether the handler
    returned or raised. *)
Theorem serve_closes_session (req : Request) (w : Server) :
  fst (serve req w) = fst (app req (database w)) /\
  database (snd (serve req w)) = snd (app req (database w)) /\
  open_sessions (snd (serve req w)) = open_sessions w.
Proof.
  destruct req as [user r|movie|rating|uid|]; unfold serve, app;
    try (unfold get_db; cbn [SessionLocal database open_sessions];
         match goal with
         | |- context [bind ?m ?k (database w)] =>
             destruct (bind m k (database w)) as [[a|e] s']
         end; cbn; auto).
  cbn. auto.
Qed.

End Service.

(** ** The handlers run on concrete requests *)

(** C1 at a store holding alice: her email is refused, and bob's
    registration, which succeeds, finds nobody with his email. *)
Lemma create_user_email_conflict_witness :
  fst (create_user demo_hash alice_again "s2" store_alice)
  = Raise (HTTPException 400 "Email already registered")
  /\
  forall u, In u (users store_alice) ->
            User.email u <> UserCreate.email bob.
Proof.
  split.
  - apply (proj1 (create_user_email_conflict demo_hash alice_again "s2"
                                             store_alice)).
    exists alice. split; [now left|reflexivity].
  - apply (proj2 (create_user_email_conflict demo_hash bob "s2" store_alice)
                 bob_response).
    reflexivity.
Defined.

(** C3 at bob's registration in the store holding alice. *)
Lemma create_user_response_payload_witness :
  exists row,
    users store_alice_bob = users store_alice ++ [row] /\
    User.username row = "bob" /\
    User.email row = "bob@example.org" /\
    UserResponse_payload bob_response
    = [ ("id", JInt (User.id row));
        ("username", JStr (User.username row));
        ("email", JStr (User.email row)) ] /\
    keys (UserResponse_payload bob_response) = ["id"; "username"; "email"] /\
    member "hashed_password" (UserResponse_payload bob_response) = None /\
    member "password" (UserResponse_payload bob_response) = None.
Proof.
  exact (@create_user_response_payload string demo_hash bob "s2"
           store_alice store_alice_bob bob_response eq_refl).
Defined.

(** C7 at bob's registration: the row stored for him carries the digest of
    his password under the salt drawn for the request; and a request for
    bob whose salt and password make up the same digest leaves the same
    store. *)
Lemma create_user_stores_hash_witness :
  (exists row,
     users store_alice_bob = users store_alice ++ [row] /\
     movies store_alice_bob = movies store_alice /\
     ratings store_alice_bob = ratings store_alice /\
     User.id row = 2 /\
     User.username row = "bob" /\
     User.email row = "bob@example.org" /\
     User.hashed_password row = demo_hash "s2" "hunter2" /\
     pwd_context_hash demo_hash "s2" "hunter2"
     = Return (User.hashed_password row))
  /\
  create_user demo_hash (UserCreate.mk "bob" "bob@example.org" "unter2")
              "s2h" store_alice
  = (Return bob_response, store_alice_bob).
Proof.
  destruct (@create_user_stores_hash string demo_hash bob "s2"
              store_alice store_alice_bob bob_response eq_refl) as [A B].
  split; [exact A|].
  apply (B (UserCreate.mk "bob" "bob@example.org" "unter2") "s2h");
    reflexivity.
Defined.

(** C9 at the second registration of alice's email. *)
Lemma create_user_conflict_store_unchanged_witness :
  snd (create_user demo_hash alice_again "s2" store_alice) = store_alice /\
  users (snd (create_user demo_hash alice_again "s2" store_alice)) = [alice] /\
  movies (snd (create_user demo_hash alice_again "s2" store_alice)) = [] /\
  ratings (snd (create_user demo_hash alice_again "s2" store_alice)) = [].
Proof.
  exact (@create_user_conflict_store_unchanged string demo_hash
           alice_again "s2" store_alice eq_refl).
Defined.

Lemma store_alice_bob_reachable : reachable demo_hash store_alice_bob.
Proof.
  change store_alice_bob
    with (snd (app demo_hash (POST_register bob "s2") store_alice)).
  apply reachable_step.
  change store_alice
    with (snd (app demo_hash (POST_register alice_create "s1")
                   (empty_store float))).
  apply reachable_step. apply reachable_empty.
Qed.

(** C4, as the code has it, at the store holding alice: her username with a
    new email raises and stores nothing; and the store reached by
    registering alice, then bob, has no username twice. *)
Lemma username_unique_by_constraint_witness :
  (exists e, create_user demo_hash alice_new_email "s2" store_alice
             = (Raise e, store_alice))
  /\
  NoDup (map User.username (users store_alice_bob)).
Proof.
  split.
  - apply (proj1 (username_unique_by_constraint demo_hash alice_new_email
                                                "s2" store_alice)).
    + exists alice. split; [now left|reflexivity].
    + intros u [<-|[]]. discriminate.
  - apply (proj2 (username_unique_by_constraint demo_hash alice_new_email
                                                "s2" store_alice_bob)).
    exact store_alice_bob_reachable.
Defined.

(** C4 as stated fails: the store holds a user named alice, the request
    repeats her username with an email nobody has, the one existence check
    of the handler (the query on the email) finds no row, and the outcome
    is not an HTTP error raised by the handler. *)
Lemma create_user_has_no_username_check :
  (exists u, In u (users store_alice) /\
             User.username u = UserCreate.username alice_new_email) /\
  (forall u, In u (users store_alice) ->
             User.email u <> UserCreate.email alice_new_email) /\
  fst (query_User_by_email_first (UserCreate.email alice_new_email)
                                 store_alice) = Return None /\
  ~ (exists status_code detail,
       fst (create_user demo_hash alice_new_email "s2" store_alice)
       = Raise (HTTPException status_code detail)).
Proof.
  split; [exists alice; split; [now left|reflexivity]|].
  split; [intros u [<-|[]]; discriminate|].
  split; [reflexivity|].
  intros [status_code [detail H]]. discriminate H.
Qed.

(** C8 at a movie with an ASCII title and description. *)
Lemma create_movie_inserts_witness :
  create_movie heat store_alice
  = (Return heat_response,
     mkStore [alice]
             [Movie.mk 1 (text "Heat") (text "Los Angeles, 1995")] []).
Proof.
  exact (@create_movie_inserts heat store_alice eq_refl eq_refl).
Defined.

(** C8 as stated fails: for a title that is one lone surrogate the handler
    returns no record, raises, and the movies are as before. *)
Lemma create_movie_surrogate_raises :
  create_movie surrogate_movie store_alice
  = (Raise UnicodeEncodeError, store_alice) /\
  ~ (exists record, fst (create_movie surrogate_movie store_alice)
                    = Return record) /\
  movies (snd (create_movie surrogate_movie store_alice))
  = movies store_alice.
Proof.
  split; [reflexivity|]. split; [|reflexivity].
  intros [record H]. discriminate H.
Qed.



(** C2 at a movie created in the store holding alice, asked for user 99. *)
Lemma get_recommendations_all_movies_witness :
  MovieResponse.title heat_response = text "Heat" /\
  MovieResponse.description heat_response = text "Los Angeles, 1995" /\
  In (Movie.mk 1 (text "Heat") (text "Los Angeles, 1995"))
     (movies (snd (create_movie heat store_alice))) /\
  exists l,
    fst (get_recommendations 99 (snd (create_movie heat store_alice)))
    = Return l /\
    In heat_response l.
Proof.
  exact (proj2 (get_recommendations_all_movies 99 store_alice heat)
               heat_response eq_refl).
Defined.

(** A rating for a movie and a user that do not exist, with a negative
    score, is stored under key 1 in the store holding only alice. *)
Example create_rating_wild :
  fst (app demo_hash (@POST_ratings string wild_rating) store_alice)
  = Return (BRating (RatingResponse.mk 1 404 (-7)
                                       (S754_finite true 167 (-1)))).
Proof. reflexivity. Qed.

(** A NaN rating is stored as NULL, returned as [None] by the handler and
    refused by the response model. *)
Example create_rating_nan :
  create_rating nan_rating store_alice
  = (Return (Rating.mk 1 1 1 None),
     mkStore [alice] [] [Rating.mk 1 1 1 None]) /\
  fst (app demo_hash (@POST_ratings string nan_rating) store_alice)
  = Raise ValidationError.
Proof. split; reflexivity. Qed.

(** A password with a NUL character is refused before anything is stored. *)
Example create_user_nul_password :
  create_user demo_hash bob_nul "s2" store_alice
  = (Raise PasswordValueError, store_alice).
Proof. reflexivity. Qed.

(** A movie created in the store holding alice is what user 1 and user 99
    are both recommended next. *)
Example create_movie_then_recommend :
  fst (get_recommendations 1 (snd (create_movie heat store_alice)))
  = Return [heat_response]
  /\
  fst (get_recommendations 99 (snd (create_movie heat store_alice)))
  = Return [heat_response].
Proof. split; reflexivity. Qed.

(** Two registrations from the empty store: keys 1 and 2 in order. *)
Example register_alice_then_bob :
  snd (app demo_hash (POST_register bob "s2")
           (snd (app demo_hash (POST_register alice_create "s1")
                     (empty_store float))))
  = store_alice_bob.
Proof. reflexivity. Qed.

(** ** The further properties on concrete stores and requests *)

(** X1 at the store reached by registering alice, then bob. *)
Lemma reachable_keys_count_up_witness :
  keys_in_sequence store_alice_bob /\
  NoDup (map User.id (users store_alice_bob)) /\
  NoDup (map Movie.id (movies store_alice_bob)) /\
  NoDup (map (@Rating.id float) (ratings store_alice_bob)).
Proof.
  exact (reachable_keys_count_up store_alice_bob_reachable).
Defined.

(** X2 at the same store. *)
Lemma reachable_emails_NoDup_witness :
  NoDup (map User.email (users store_alice_bob)).
Proof.
  exact (reachable_emails_NoDup store_alice_bob_reachable).
Defined.

(** X3 at bob's row in that store. *)
Lemma reachable_hashed_passwords_witness :
  exists r p,
    get_password_hash demo_hash r p = Return (User.hashed_password bob_row).
Proof.
  apply (reachable_hashed_passwords (s := store_alice_bob) bob_row
           store_alice_bob_reachable).
  right. now left.
Defined.

(** X4 at bob's row in that store. *)
Lemma reachable_query_by_email_witness :
  query_User_by_email_first "bob@example.org" store_alice_bob
  = (Return (Some bob_row), store_alice_bob).
Proof.
  apply (reachable_query_by_email (s := store_alice_bob) bob_row
           store_alice_bob_reachable).
  right. now left.
Defined.

(** X7 at two passwords for bob, under two salts. *)
Lemma create_user_response_ignores_password_witness :
  fst (create_user demo_hash
         (UserCreate.mk "bob" "bob@example.org" "hunter2") "s2" store_alice)
  = fst (create_user demo_hash
           (UserCreate.mk "bob" "bob@example.org" "letmein") "s9"
           store_alice).
Proof.
  apply create_user_response_ignores_password;
    first [reflexivity | cbn; lia].
Defined.

(** X8 at bob's registration in the store holding alice. *)
Lemma create_user_then_query_witness :
  fst (query_User_by_email_first "bob@example.org"
         (snd (create_user demo_hash bob "s2" store_alice)))
  = Return (Some bob_row).
Proof.
  exact (@create_user_then_query string demo_hash bob "s2" store_alice
           bob_response eq_refl).
Defined.



(** X12 at alice's row, over a run that registers bob and creates a
    movie. *)
Lemma run_keeps_rows_witness :
  nth_error (users (run demo_hash
                        [POST_register bob "s2"; @POST_movies string heat]
                        store_alice)) 0
  = Some alice.
Proof.
  apply (proj1 (@run_keeps_rows string demo_hash
                  [POST_register bob "s2"; @POST_movies string heat]
                  store_alice 0%nat)).
  reflexivity.
Defined.

(** X13: bob registers in the store holding alice, a movie is created,
    and a second request with bob's email is refused. *)
Lemma registered_email_stays_taken_witness :
  create_user demo_hash bob_again "s3"
    (run demo_hash [@POST_movies string heat]
         (snd (create_user demo_hash bob "s2" store_alice)))
  = (Raise (HTTPException 400 "Email already registered"),
     run demo_hash [@POST_movies string heat]
         (snd (create_user demo_hash bob "s2" store_alice))).
Proof.
  exact (@registered_email_stays_taken string demo_hash bob bob_again
           "s2" "s3" store_alice bob_response [@POST_movies string heat]
           eq_refl eq_refl).
Defined.

(** X14: the movie created in the store holding alice is recommended to
    user 7 after bob has registered. *)
Lemma created_movie_stays_recommended_witness :
  exists l,
    fst (get_recommendations 7
           (run demo_hash [POST_register bob "s2"]
                (snd (create_movie heat store_alice)))) = Return l /\
    In heat_response l.
Proof.
  exact (@created_movie_stays_recommended string demo_hash heat store_alice
           [POST_register bob "s2"] 7 heat_response eq_refl).
Defined.

(** X16 at the store reached by registering alice, then bob. *)
Lemma created_ids_count_rows_witness :
  (forall movie m,
     fst (create_movie movie store_alice_bob) = Return m ->
     MovieResponse.id m = 1) /\
  (forall rating x,
     fst (create_rating rating store_alice_bob) = Return x ->
     Rating.id x = 1) /\
  (forall user r resp,
     fst (create_user demo_hash user r store_alice_bob) = Return resp ->
     UserResponse.id resp = 3).
Proof.
  exact (created_ids_count_rows store_alice_bob_reachable).
Defined.
